(** * Catalyst AI: the retry wrapper, the concept parser, the UI actions
      and the image proxy, embedded in Rocq.

    Sources: [src/unnamed/part_000] (the React [App] component) and
    [src/server/index.js] (the Express proxy). *)

From Stdlib Require Import ZArith List String Ascii Bool Lia.
Import ListNotations.
Open Scope string_scope.
Set Warnings "-register-all".

(* ------------------------------------------------------------------ *)
(** ** JavaScript values as produced by [JSON.parse] *)

Module Js.

(** JSON values. Numbers are restricted to integers (HTTP statuses and
    the like); objects keep their key order and duplicates, as the text. *)
Inductive jval :=
| JNull
| JBool (b : bool)
| JNum (z : Z)
| JStr (s : string)
| JArr (l : list jval)
| JObj (kvs : list (string * jval)).

(** [undefined] is [None]. *)
Definition value := option jval.

Definition truthy (v : value) : bool :=
  match v with
  | None | Some JNull => false
  | Some (JBool b) => b
  | Some (JNum z) => negb (Z.eqb z 0)
  | Some (JStr s) => negb (String.eqb s "")
  | Some (JArr _) | Some (JObj _) => true
  end.

(** [JSON.parse] keeps the last binding of a duplicated key. *)
Fixpoint lookup_key (k : string) (kvs : list (string * jval)) : value :=
  match kvs with
  | [] => None
  | (k', v) :: rest =>
      match lookup_key k rest with
      | Some w => Some w
      | None => if String.eqb k k' then Some v else None
      end
  end.

(** Property read [v.k] / [v?.k] on a non-null value; [None] stands for
    [undefined]. Reading a property of [null] is handled by the callers
    (a [TypeError], or [undefined] under optional chaining). *)
Definition get_prop (v : value) (k : string) : value :=
  match v with
  | Some (JObj kvs) => lookup_key k kvs
  | _ => None
  end.

(** [v?.[0]]: arrays by position, objects by key ["0"], strings by
    code unit. *)
Definition get_index0 (v : value) : value :=
  match v with
  | Some (JArr (x :: _)) => Some x
  | Some (JObj kvs) => lookup_key "0" kvs
  | Some (JStr (String c _)) => Some (JStr (String c EmptyString))
  | _ => None
  end.

(** Decimal rendering of naturals and integers. *)
Fixpoint digits_of (fuel n : nat) (acc : string) : string :=
  match fuel with
  | O => acc
  | S f =>
      let d := ascii_of_nat (48 + Nat.modulo n 10) in
      let acc' := String d acc in
      if Nat.ltb n 10 then acc' else digits_of f (Nat.div n 10) acc'
  end.

Definition string_of_nat (n : nat) : string := digits_of (S n) n "".

Definition string_of_Z (z : Z) : string :=
  match z with
  | Z0 => "0"
  | Zpos p => string_of_nat (Pos.to_nat p)
  | Zneg p => String "-" (string_of_nat (Pos.to_nat p))
  end.

(** The [TypeError] of [ToPrimitive] when an object has no usable
    conversion method. *)
Definition primitive_error : string := "Cannot convert object to primitive value".

(** [String(v)] and the template literal [`${v}`] on a JSON value:
    arrays are joined with [","], with [null] elements rendered empty;
    objects give ["[object Object]"]. A key ["toString"] of an object is
    an own property holding data, not a function: [ToPrimitive] skips
    it, the inherited [valueOf] returns the object itself, and the
    conversion throws a [TypeError] ([None]). *)
Fixpoint to_string (v : jval) : option string :=
  match v with
  | JNull => Some "null"
  | JBool true => Some "true"
  | JBool false => Some "false"
  | JNum z => Some (string_of_Z z)
  | JStr s => Some s
  | JArr l =>
      let fix join (l : list jval) : option string :=
        match l with
        | [] => Some ""
        | [x] => match x with JNull => Some "" | _ => to_string x end
        | x :: rest =>
            match (match x with JNull => Some "" | _ => to_string x end), join rest with
            | Some a, Some b => Some (a ++ "," ++ b)
            | _, _ => None
            end
        end in
      join l
  | JObj kvs =>
      match lookup_key "toString" kvs with
      | Some _ => None
      | None => Some "[object Object]"
      end
  end.

(** The error thrown by [throw new Error(m)] for a defined [m]: an
    [Error] whose message is [String(m)], or the [TypeError] raised
    while converting [m]. *)
Definition error_of (v : jval) : string :=
  match to_string v with
  | Some s => s
  | None => primitive_error
  end.

End Js.

Import Js.

(* ------------------------------------------------------------------ *)
(** ** [fetch] and the responses the wrapper can receive *)

Module Net.

(** The body of a response, as [response.json()] sees it: valid JSON,
    or a text whose parsing rejects with the given [SyntaxError] message. *)
Inductive body :=
| BodyJson (v : jval)
| BodyMalformed (parse_error : string).

Record response := mkResponse { status : Z; rbody : body }.

(** [response.ok] is a status in 200..299. *)
Definition ok (r : response) : bool := ((200 <=? status r) && (status r <=? 299))%Z.

(** One call of [fetch(url, options)]: it resolves with a response or
    rejects (network failure) with an error message. *)
Inductive outcome :=
| Resp (r : response)
| Reject (msg : string).

(** The settled value of a promise: resolved with a JSON value or
    rejected with an error message. *)
Inductive result :=
| Resolved (v : jval)
| Rejected (msg : string).

(** Observable effects of the wrapper, in order: a network call for
    attempt [i], or a [setTimeout] sleep of [d] milliseconds. *)
Inductive event :=
| EvFetch (i : nat)
| EvSleep (d : Z).

End Net.

Import Net.

(* ------------------------------------------------------------------ *)
(** ** [fetchWithBackoff] (part_000, lines 18-40) *)

Module Backoff.

Definition generic_error : string := "Request failed after multiple retries.".

Definition type_error_null_error : string :=
  "Cannot read properties of null (reading 'error')".

(** The message thrown in the non-OK, non-429 branch:
    [const errData = await response.json();
     throw new Error(errData.error?.message || `HTTP error! status: ${response.status}`);] *)
Definition error_message (r : response) : string :=
  match rbody r with
  | BodyMalformed e => e
  | BodyJson JNull => type_error_null_error
  | BodyJson errData =>
      let m := get_prop (get_prop (Some errData) "error") "message" in
      match m with
      | Some mv => if truthy m then error_of mv
                   else "HTTP error! status: " ++ string_of_Z (status r)
      | None => "HTTP error! status: " ++ string_of_Z (status r)
      end
  end.

Section Loop.

(** What [fetch] does at each attempt, indexed by the attempt number. *)
Variable env : nat -> outcome.

(** The [for] loop, with [n] iterations left, at index [i] and with the
    current [delay]. The test [i === maxRetries - 1] of the [catch] is
    [n = 1]. Returns the effects performed and the settled result. *)
Fixpoint go (n : nat) (i : nat) (delay : Z) : list event * result :=
  match n with
  | O => ([], Rejected generic_error)
  | S n' =>
      let retry (e : string) :=
        match n' with
        | O => ([EvFetch i], Rejected e)
        | _ => let '(t, res) := go n' (S i) (delay * 2)%Z in
               (EvFetch i :: EvSleep delay :: t, res)
        end in
      match env i with
      | Reject e => retry e
      | Resp r =>
          if ok r then
            (* [return response.json()] is not awaited inside the [try]:
               a parse failure rejects the call without reaching [catch]. *)
            ([EvFetch i],
             match rbody r with
             | BodyJson v => Resolved v
             | BodyMalformed e => Rejected e
             end)
          else if Z.eqb (status r) 429%Z then
            let '(t, res) := go n' (S i) (delay * 2)%Z in
            (EvFetch i :: EvSleep delay :: t, res)
          else retry (error_message r)
      end
  end.

(** [fetchWithBackoff(url, options, maxRetries)]: [let delay = 1000]. *)
Definition fetchWithBackoff (maxRetries : nat) : list event * result :=
  go maxRetries 0 1000%Z.

End Loop.

End Backoff.

Import Backoff.

(* ------------------------------------------------------------------ *)
(** ** The concept-list parser (part_000, lines 94-101)

    [text.split(/\d+\.\s+/).filter(c => c.trim().length > 0)
         .map((conceptText, index) => ({ id: Date.now() + index,
                                         text: conceptText.trim(),
                                         imageUrl: null }))]

    Strings are lists of code units; a code unit below 256 is one
    [ascii] (Latin-1), so [\s] and [trim] both see TAB, LF, VT, FF, CR,
    SPACE and NO-BREAK SPACE. *)

Module Parser.

Local Open Scope list_scope.

Definition is_digit (c : ascii) : bool :=
  let n := nat_of_ascii c in Nat.leb 48 n && Nat.leb n 57.

Definition is_ws (c : ascii) : bool :=
  let n := nat_of_ascii c in
  (Nat.leb 9 n && Nat.leb n 13) || Nat.eqb n 32 || Nat.eqb n 160.

Fixpoint count_while (p : ascii -> bool) (l : list ascii) : nat :=
  match l with
  | [] => 0
  | c :: rest => if p c then S (count_while p rest) else 0
  end.

(** Matching [/\d+\.\s+/] at the start of [l]: the length of the match.
    [\d+] backtracking to a shorter run would leave a digit where the
    [\.] must be, so only the maximal digit run can succeed; [\s+] is
    greedy. *)
Definition match_at (l : list ascii) : option nat :=
  let d := count_while is_digit l in
  if Nat.eqb d 0 then None
  else match skipn d l with
       | c :: rest =>
           if Ascii.eqb c "."%char then
             let w := count_while is_ws rest in
             if Nat.eqb w 0 then None else Some (d + 1 + w)
           else None
       | [] => None
       end.

(** [String.prototype.split] with a regular expression (ECMA-262
    SplitMatcher loop): scan positions left to right; at a match, close
    the current fragment and resume after the match. [cur] is the
    fragment being built; [fuel] bounds the scan. *)
Fixpoint split_go (fuel : nat) (s cur : list ascii) : list (list ascii) :=
  match fuel with
  | O => [cur ++ s]
  | S f =>
      match s with
      | [] => [cur]
      | c :: s' =>
          match match_at s with
          | Some n => cur :: split_go f (skipn n s) []
          | None => split_go f s' (cur ++ [c])
          end
      end
  end.

Definition js_split (s : list ascii) : list (list ascii) :=
  split_go (S (List.length s)) s [].

Fixpoint drop_ws (l : list ascii) : list ascii :=
  match l with
  | [] => []
  | c :: rest => if is_ws c then drop_ws rest else l
  end.

(** [String.prototype.trim]. *)
Definition trim (l : list ascii) : list ascii := rev (drop_ws (rev (drop_ws l))).

Record concept := mkConcept { id : Z; text : string; imageUrl : option string }.

(** [Array.prototype.map] with the index. *)
Fixpoint map_index {A B} (f : nat -> A -> B) (k : nat) (l : list A) : list B :=
  match l with
  | [] => []
  | x :: rest => f k x :: map_index f (S k) rest
  end.

(** The parser; [now k] is the value of the [k]-th call of [Date.now()]
    (one per [map] callback). *)
Definition to_concept (now : nat -> Z) (index : nat) (c : list ascii) : concept :=
  {| id := (now index + Z.of_nat index)%Z;
     text := string_of_list_ascii (trim c);
     imageUrl := None |}.

Definition nonblank (c : list ascii) : bool := Nat.ltb 0 (List.length (trim c)).

Definition parse_concepts (now : nat -> Z) (t : string) : list concept :=
  map_index (to_concept now) 0 (filter nonblank (js_split (list_ascii_of_string t))).

(** A separator: a whole match of the pattern. *)
Definition is_sep (m : list ascii) : Prop := match_at m = Some (List.length m).

(** A fragment in which the pattern matches at no position. *)
Definition no_sep (f : list ascii) : Prop :=
  forall j, j < List.length f -> match_at (skipn j f) = None.

End Parser.

Import Parser.

(* ------------------------------------------------------------------ *)
(** ** [x > 0] on a JSON value: [ToNumber] (ECMA-262 7.1.4)

    Only the sign of the number matters to the code, so the conversion
    returns whether the number is positive. *)

Module Num.

Local Open Scope list_scope.

Definition is_char (n : nat) (c : ascii) : bool := Nat.eqb (nat_of_ascii c) n.

Fixpoint span (p : ascii -> bool) (l : list ascii) : list ascii * list ascii :=
  match l with
  | [] => ([], [])
  | c :: rest =>
      if p c then let '(a, b) := span p rest in (c :: a, b) else ([], l)
  end.

Definition digits_value (ds : list ascii) : Z :=
  fold_left (fun acc c => acc * 10 + (Z.of_nat (nat_of_ascii c) - 48))%Z ds 0%Z.

(** A [StrUnsignedDecimalLiteral]: [Infinity], or [m * 10^k] with [m]
    read from [len] digits. *)
Inductive decimal :=
| DecInf
| DecFin (m : Z) (len : nat) (k : Z).

(** [Infinity | DecimalDigits [. DecimalDigits] [ExponentPart]
    | . DecimalDigits [ExponentPart]]; [None] when [l] is not one. *)
Definition unsigned_decimal (l : list ascii) : option decimal :=
  if String.eqb (string_of_list_ascii l) "Infinity" then Some DecInf else
  let '(ip, r1) := span is_digit l in
  let '(fp, r2) :=
    match r1 with
    | c :: r => if is_char 46 c then span is_digit r else ([], r1)
    | [] => ([], [])
    end in
  let ds := ip ++ fp in
  let f := Z.of_nat (List.length fp) in
  match ds with
  | [] => None
  | _ =>
      match r2 with
      | [] => Some (DecFin (digits_value ds) (List.length ds) (- f))
      | c :: r3 =>
          if is_char 101 c || is_char 69 c then
            let '(neg, r4) :=
              match r3 with
              | sg :: r5 =>
                  if is_char 43 sg then (false, r5)
                  else if is_char 45 sg then (true, r5) else (false, r3)
              | [] => (false, [])
              end in
            let '(ed, r6) := span is_digit r4 in
            match ed, r6 with
            | _ :: _, [] =>
                let e := digits_value ed in
                Some (DecFin (digits_value ds) (List.length ds)
                             ((if neg then - e else e) - f)%Z)
            | _, _ => None
            end
          else None
      end
  end.

(** The double nearest to [m * 10^k] is positive unless [m = 0] or
    [m * 10^k <= 2^-1075], half the least subnormal (the tie rounds to
    the even [0]). As [2^1075 < 10^324], the comparison is decided
    without computing when [-k >= len + 324]. *)
Definition decimal_positive (d : decimal) : bool :=
  match d with
  | DecInf => true
  | DecFin m len k =>
      (0 <? m)%Z &&
      ((0 <=? k)%Z ||
       ((- k <? Z.of_nat len + 324)%Z && (10 ^ (- k) <? m * 2 ^ 1075)%Z))
  end.

Definition is_hex (c : ascii) : bool :=
  let n := nat_of_ascii c in
  is_digit c || (Nat.leb 65 n && Nat.leb n 70) || (Nat.leb 97 n && Nat.leb n 102).

Definition is_octal (c : ascii) : bool :=
  let n := nat_of_ascii c in Nat.leb 48 n && Nat.leb n 55.

Definition is_binary (c : ascii) : bool := is_char 48 c || is_char 49 c.

(** [0x..], [0o..], [0b..] (no sign): [Some] of the sign test when [l]
    is such a literal. *)
Definition nondecimal_positive (l : list ascii) : option bool :=
  match l with
  | z :: x :: ds =>
      let digit :=
        if is_char 120 x || is_char 88 x then Some is_hex
        else if is_char 111 x || is_char 79 x then Some is_octal
        else if is_char 98 x || is_char 66 x then Some is_binary
        else None in
      match digit with
      | Some p =>
          if is_char 48 z && negb (Nat.eqb (List.length ds) 0) && forallb p ds
          then Some (existsb (fun c => negb (is_char 48 c)) ds)
          else None
      | None => None
      end
  | _ => None
  end.

(** [StringToNumber(s) > 0]: white space around the literal is
    ignored, an empty literal is [0], a ["-"] sign gives [-0] or a
    negative number, and a text that is not a literal is [NaN]. *)
Definition string_number_positive (s : string) : bool :=
  let l := trim (list_ascii_of_string s) in
  match l with
  | [] => false
  | c :: r =>
      match nondecimal_positive l with
      | Some b => b
      | None =>
          let unsigned := if is_char 43 c then r else l in
          if is_char 45 c then false
          else match unsigned_decimal unsigned with
               | Some d => decimal_positive d
               | None => false
               end
      end
  end.

(** [ToNumber(v) > 0]: an array or object is first converted by
    [ToPrimitive], which gives the string of [to_string] or throws
    ([None]). *)
Definition number_positive (v : jval) : option bool :=
  match v with
  | JNull => Some false
  | JBool b => Some b
  | JNum z => Some (0 <? z)%Z
  | JStr s => Some (string_number_positive s)
  | JArr _ | JObj _ =>
      match to_string v with
      | Some s => Some (string_number_positive s)
      | None => None
      end
  end.

End Num.

Import Num.

(* ------------------------------------------------------------------ *)
(** ** Session state and the two UI actions (part_000, lines 7-156)

    Each action is run to completion; the React setters are applied in
    the order the code calls them. The creativity value only shapes the
    prompt text and is left out. *)

Module Session.

Record session := mkSession {
  apiKey : string;
  brief : string;
  concepts : list concept;
  isLoadingIdeas : bool;
  loadingImageId : option Z;
  error : option string }.

Definition setConcepts (v : list concept) (st : session) : session :=
  mkSession (apiKey st) (brief st) v (isLoadingIdeas st) (loadingImageId st) (error st).
Definition setIsLoadingIdeas (v : bool) (st : session) : session :=
  mkSession (apiKey st) (brief st) (concepts st) v (loadingImageId st) (error st).
Definition setLoadingImageId (v : option Z) (st : session) : session :=
  mkSession (apiKey st) (brief st) (concepts st) (isLoadingIdeas st) v (error st).
Definition setError (v : option string) (st : session) : session :=
  mkSession (apiKey st) (brief st) (concepts st) (isLoadingIdeas st) (loadingImageId st) v.
Definition setBrief (v : string) (st : session) : session :=
  mkSession (apiKey st) v (concepts st) (isLoadingIdeas st) (loadingImageId st) (error st).
Definition setApiKey (v : string) (st : session) : session :=
  mkSession v (brief st) (concepts st) (isLoadingIdeas st) (loadingImageId st) (error st).

Definition dq : string := String (ascii_of_nat 34) EmptyString.

(** The initial value of [brief] (line 9). *)
Definition initial_brief : string :=
  "Client: " ++ dq ++ "Aqua Pura" ++ dq ++ " - a new premium bottled water brand. Target Audience: Health-conscious millennials (25-40). Core Challenge: Differentiate in a saturated market. Key Message: " ++ dq ++ "Experience purity in every drop." ++ dq ++ " Mandatories: Must feature natural elements, convey a sense of calm and refreshment. Budget: High-end campaign.".

(** The [useState] initial values (lines 7-15). *)
Definition initial : session := mkSession "" initial_brief [] false None None.

(** [result?.candidates?.[0]?.content?.parts?.[0]?.text] *)
Definition candidate_text (result : jval) : value :=
  get_prop (get_index0 (get_prop (get_prop (get_index0
    (get_prop (Some result) "candidates")) "content") "parts")) "text".

(** [generateIdeas] (lines 47-109): the [fetch] calls it makes and the
    final state. [env] answers the [fetch] calls of [fetchWithBackoff],
    [now] the calls of [Date.now()]. *)
Definition generateIdeas (st : session) (env : nat -> outcome) (now : nat -> Z)
  : list event * session :=
  if String.eqb (brief st) "" then
    ([], setError (Some "Please enter a creative brief.") st)
  else
    let st1 := setConcepts [] (setError None (setIsLoadingIdeas true st)) in
    let fail (m : string) := setError (Some ("Failed to generate ideas. " ++ m)) st1 in
    let '(t, res) := fetchWithBackoff env 5 in
    let st2 :=
      match res with
      | Rejected m => fail m
      | Resolved result =>
          let tx := candidate_text result in
          if negb (truthy tx) then fail "Invalid response structure from API."
          else match tx with
               | Some (JStr s) => setConcepts (parse_concepts now s) st1
               | _ => fail "text.split is not a function"
               end
      end in
    (t, setIsLoadingIdeas false st2).

(** [x.length > 0] for a truthy value of [result.predictions]: the
    [length] of an array or a string, and for an object its ["length"]
    key ([undefined], hence [NaN], when absent); a number or a boolean
    has no [length]. [None]: the conversion threw a [TypeError]. *)
Definition length_positive (v : jval) : option bool :=
  match v with
  | JArr l => Some (negb (Nat.eqb (List.length l) 0))
  | JStr s => Some (negb (Nat.eqb (String.length s) 0))
  | JObj kvs =>
      match lookup_key "length" kvs with
      | Some n => number_positive n
      | None => Some false
      end
  | _ => Some false
  end.

Definition no_image : string := "No image data received from API.".

(** The branch of [visualizeConcept] after the call (lines 141-148):
    the data URI, or the message of the error thrown. *)
Definition image_url (result : jval) : string + string :=
  match result with
  | JNull => inr "Cannot read properties of null (reading 'predictions')"
  | _ =>
      let preds := get_prop (Some result) "predictions" in
      match preds with
      | Some p =>
          if truthy preds then
            match length_positive p with
            | None => inr primitive_error
            | Some false => inr no_image
            | Some true =>
                match get_index0 preds with
                | None => inr "Cannot read properties of undefined (reading 'bytesBase64Encoded')"
                | Some JNull => inr "Cannot read properties of null (reading 'bytesBase64Encoded')"
                | Some p0 =>
                    let b := get_prop (Some p0) "bytesBase64Encoded" in
                    match b with
                    | Some bv =>
                        if truthy b then
                          match to_string bv with
                          | Some u => inl ("data:image/png;base64," ++ u)
                          | None => inr primitive_error
                          end
                        else inr no_image
                    | None => inr no_image
                    end
                end
            end
          else inr no_image
      | None => inr no_image
      end
  end.

(** [prevConcepts.map(c => (c.id === conceptId ? { ...c, imageUrl } : c))] *)
Definition set_image (conceptId : Z) (url : string) (cs : list concept) : list concept :=
  map (fun c => if Z.eqb (id c) conceptId
                then mkConcept (id c) (text c) (Some url) else c) cs.

(** [visualizeConcept(conceptId, conceptText)] (lines 116-156); the
    concept text only enters the prompt. *)
Definition visualizeConcept (st : session) (conceptId : Z) (conceptText : string)
  (env : nat -> outcome) : list event * session :=
  let st1 := setError None (setLoadingImageId (Some conceptId) st) in
  let fail (m : string) := setError (Some ("Failed to generate image. " ++ m)) st1 in
  let '(t, res) := fetchWithBackoff env 5 in
  let st2 :=
    match res with
    | Rejected m => fail m
    | Resolved result =>
        match image_url result with
        | inl url => setConcepts (set_image conceptId url (concepts st1)) st1
        | inr m => fail m
        end
    end in
  (t, setLoadingImageId None st2).

(** The user's moves between completed actions. Buttons: "Generate
    Ideas" is disabled while [isLoadingIdeas || !apiKey] (line 277),
    "Visualize" while [loadingImageId !== null] (line 205), and it is
    offered only for a concept of the list. *)
Inductive ui_step : session -> session -> Prop :=
| UiApiKey st k : ui_step st (setApiKey k st)
| UiBrief st b : ui_step st (setBrief b st)
| UiDismiss st : ui_step st (setError None st)
| UiGenerate st env now :
    isLoadingIdeas st = false -> apiKey st <> "" ->
    ui_step st (snd (generateIdeas st env now))
| UiVisualize st c env :
    loadingImageId st = None -> In c (concepts st) ->
    ui_step st (snd (visualizeConcept st (id c) (text c) env)).

Inductive reachable : session -> Prop :=
| reach_init : reachable initial
| reach_step st st' : reachable st -> ui_step st st' -> reachable st'.

End Session.

Import Session.

(* ------------------------------------------------------------------ *)
(** ** The image proxy: [app.post('/generate-image')] (server/index.js,
      lines 19-62) *)

Module Proxy.

(** [new GoogleAuth(...)], [auth.getClient()] and
    [client.getAccessToken()] together: a token or an error message. *)
Inductive auth_outcome :=
| AuthToken (token : string)
| AuthError (msg : string).

(** Effects of the handler, in order. *)
Inductive proxy_event :=
| PxAuth
| PxUpstream (token : string) (prompt : jval).

Record reply := mkReply { rstatus : Z; rjson : jval }.

Definition error_reply (code : Z) (m : string) : reply :=
  mkReply code (JObj [("error", JStr m)]).

(** The handler, for the parsed [req.body] ([None]: [undefined]). *)
Definition generate_image (reqBody : value) (auth : auth_outcome) (upstream : outcome)
  : list proxy_event * reply :=
  match reqBody with
  | None => ([], error_reply 500 "Cannot destructure property 'prompt' of 'req.body' as it is undefined.")
  | Some JNull => ([], error_reply 500 "Cannot destructure property 'prompt' of 'req.body' as it is null.")
  | Some b =>
      let prompt := get_prop (Some b) "prompt" in
      match prompt with
      | Some p =>
          if negb (truthy prompt) then ([], error_reply 400 "Prompt is required.")
          else
            match auth with
            | AuthError m => ([PxAuth], error_reply 500 m)
            | AuthToken tok =>
                let evs := [PxAuth; PxUpstream tok p] in
                match upstream with
                | Reject m => (evs, error_reply 500 m)
                | Resp r =>
                    if ok r then
                      match rbody r with
                      | BodyJson data => (evs, mkReply 200 data)
                      | BodyMalformed m => (evs, error_reply 500 m)
                      end
                    else (evs, error_reply 500 (error_message r))
                end
            end
      | None => ([], error_reply 400 "Prompt is required.")
      end
  end.

End Proxy.

Import Proxy.

(* ------------------------------------------------------------------ *)
(** ** What the page shows (part_000, line 326) *)

Module View.

(** [concepts.filter(c => c.imageUrl)]: the Visual Prototypes grid. *)
Definition visuals (cs : list concept) : list concept :=
  filter (fun c => match imageUrl c with
                   | Some u => negb (String.eqb u "")
                   | None => false
                   end) cs.

End View.

Import View.

(* ================================================================== *)
(** * Properties *)

(** ** The retry wrapper *)

Module BackoffFacts.

(** The effect pattern of a run: [Fetch 0; Sleep 1000; Fetch 1;
    Sleep 2000; Fetch 2; Sleep 4000; ...]. *)
Definition pattern_ev (j : nat) : event :=
  if Nat.even j then EvFetch (Nat.div j 2)
  else EvSleep (1000 * 2 ^ Z.of_nat (Nat.div j 2))%Z.

(** The error thrown by one failed attempt: [None] for a 429 (nothing
    thrown), the message otherwise. *)
Definition attempt_error (o : outcome) : option string :=
  match o with
  | Reject e => Some e
  | Resp r => if Z.eqb (status r) 429 then None else Some (error_message r)
  end.

(** The failure of a run in which no attempt succeeded. *)
Definition last_failure (env : nat -> outcome) (maxRetries : nat) : string :=
  match maxRetries with
  | O => generic_error
  | S k => match attempt_error (env k) with
           | Some e => e
           | None => generic_error
           end
  end.

Definition not_ok (o : outcome) : Prop :=
  match o with
  | Reject _ => True
  | Resp r => ok r = false
  end.

Definition is_429 (o : outcome) : Prop :=
  match o with
  | Reject _ => False
  | Resp r => status r = 429%Z
  end.

Lemma pattern_fetch i : pattern_ev (2 * i) = EvFetch i.
Proof.
  unfold pattern_ev. replace (2 * i) with (i * 2) by lia.
  rewrite Nat.even_mul, Nat.div_mul by lia. rewrite orb_true_r. reflexivity.
Qed.

Lemma pattern_sleep i : pattern_ev (S (2 * i)) = EvSleep (1000 * 2 ^ Z.of_nat i)%Z.
Proof.
  unfold pattern_ev. replace (S (2 * i)) with (1 + i * 2) by lia.
  rewrite Nat.even_add, Nat.even_mul, orb_true_r, Nat.div_add by lia.
  reflexivity.
Qed.

Lemma go_schedule env n i d :
  d = (1000 * 2 ^ Z.of_nat i)%Z ->
  exists len, fst (go env n i d) = map pattern_ev (seq (2 * i) len).
Proof.
  revert i d. induction n as [|n IH]; intros i d Hd.
  - exists 0. reflexivity.
  - assert (Hd2 : (d * 2 = 1000 * 2 ^ Z.of_nat (S i))%Z).
    { subst d. rewrite Nat2Z.inj_succ, Z.pow_succ_r by lia. ring. }
    assert (Hstep : forall t res, go env n (S i) (d * 2)%Z = (t, res) ->
               exists len, EvFetch i :: EvSleep d :: t = map pattern_ev (seq (2 * i) len)).
    { intros t res E. destruct (IH (S i) _ Hd2) as [len Hlen]. rewrite E in Hlen.
      simpl in Hlen. subst t.
      exists (S (S len)).
      change (seq (2 * i) (S (S len)))
        with (2 * i :: S (2 * i) :: seq (S (S (2 * i))) len).
      cbn [map]. rewrite pattern_fetch, pattern_sleep, Hd.
      replace (S (S (2 * i))) with (2 * S i) by lia. reflexivity. }
    assert (Hone : exists len, [EvFetch i] = map pattern_ev (seq (2 * i) len)).
    { exists 1. cbn [seq map]. rewrite pattern_fetch. reflexivity. }
    cbn [go]. destruct (env i) as [r|e].
    + destruct (ok r).
      * exact Hone.
      * destruct (Z.eqb (status r) 429).
        -- destruct (go env n (S i) (d * 2)%Z) as [t res] eqn:E. apply (Hstep t res); first [exact E | reflexivity].
        -- destruct n as [|n'].
           ++ exact Hone.
           ++ destruct (go env (S n') (S i) (d * 2)%Z) as [t res] eqn:E. apply (Hstep t res); first [exact E | reflexivity].
    + destruct n as [|n'].
      * exact Hone.
      * destruct (go env (S n') (S i) (d * 2)%Z) as [t res] eqn:E. apply (Hstep t res); first [exact E | reflexivity].
Qed.

Lemma ok_429 r : status r = 429%Z -> ok r = false.
Proof. intros H. unfold ok. rewrite H. reflexivity. Qed.

Lemma go_429_then_ok env n i d j v :
  i <= j -> j < i + n ->
  (forall k, i <= k < j -> is_429 (env k)) ->
  (exists r, env j = Resp r /\ ok r = true /\ rbody r = BodyJson v) ->
  snd (go env n i d) = Resolved v.
Proof.
  revert i d. induction n as [|n IH]; intros i d Hij Hjn H429 Hj; [lia|].
  cbn [go]. destruct (Nat.eq_dec i j) as [->|Hne].
  - destruct Hj as (r & Er & Ok & Eb). rewrite Er, Ok, Eb. reflexivity.
  - pose proof (H429 i ltac:(lia)) as Hi. destruct (env i) as [r|e]; [|contradiction].
    simpl in Hi. rewrite (ok_429 r Hi), Hi. cbn [Z.eqb Pos.eqb].
    destruct (go env n (S i) (d * 2)%Z) as [t res] eqn:E.
    simpl. rewrite <- (IH (S i) (d * 2)%Z); [rewrite E; reflexivity|lia|lia| |exact Hj].
    intros k Hk. apply H429; lia.
Qed.

Lemma last_failure_shift env i n :
  last_failure (fun k => env (i + k)) (S (S n))
  = last_failure (fun k => env (S i + k)) (S n).
Proof. unfold last_failure. rewrite Nat.add_succ_r. reflexivity. Qed.

Lemma go_all_fail env n i d :
  (forall k, i <= k < i + n -> not_ok (env k)) ->
  snd (go env n i d) = Rejected (last_failure (fun k => env (i + k)) n).
Proof.
  revert i d. induction n as [|n IH]; intros i d Hf; [reflexivity|].
  assert (Hrec : forall t res, go env n (S i) (d * 2)%Z = (t, res) -> n <> 0 ->
            res = Rejected (last_failure (fun k => env (i + k)) (S n))).
  { intros t res E Hn. destruct n as [|n]; [congruence|].
    rewrite last_failure_shift.
    rewrite <- (IH (S i) (d * 2)%Z); [rewrite E; reflexivity|].
    intros k Hk. apply Hf. lia. }
  specialize (Hf i ltac:(lia)).
  cbn [go]. destruct (env i) as [r|e] eqn:Ei.
  - simpl in Hf. rewrite Hf.
    destruct (Z.eqb (status r) 429) eqn:E429.
    + destruct (go env n (S i) (d * 2)%Z) as [t res] eqn:E.
      destruct n as [|n'].
      * simpl in E. injection E as <- <-. simpl.
        rewrite Nat.add_0_r, Ei. simpl. rewrite E429. reflexivity.
      * simpl. f_equal. apply (Hrec t res); [first [exact E | reflexivity]|]. congruence.
    + destruct n as [|n'].
      * simpl. rewrite Nat.add_0_r, Ei. simpl. rewrite E429. reflexivity.
      * destruct (go env (S n') (S i) (d * 2)%Z) as [t res] eqn:E.
        simpl. apply (Hrec t res); [first [exact E | reflexivity]|]. congruence.
  - destruct n as [|n'].
    + simpl. rewrite Nat.add_0_r, Ei. reflexivity.
    + destruct (go env (S n') (S i) (d * 2)%Z) as [t res] eqn:E.
      simpl. apply (Hrec t res); [first [exact E | reflexivity]|]. congruence.
Qed.

(** Where an empty failure message can come from. *)
Definition empty_message_source (o : outcome) : Prop :=
  o = Reject ""
  \/ exists r, o = Resp r /\ status r <> 429%Z /\
       (rbody r = BodyMalformed ""
        \/ exists v mv, rbody r = BodyJson v
                        /\ get_prop (get_prop (Some v) "error") "message" = Some mv
                        /\ truthy (Some mv) = true /\ to_string mv = Some "").

Lemma error_message_empty r :
  error_message r = "" ->
  rbody r = BodyMalformed ""
  \/ exists v mv, rbody r = BodyJson v
                  /\ get_prop (get_prop (Some v) "error") "message" = Some mv
                  /\ truthy (Some mv) = true /\ to_string mv = Some "".
Proof.
  unfold error_message. destruct (rbody r) as [v|e]; [|intros ->; left; reflexivity].
  intros H. right. exists v.
  destruct v; try discriminate;
    destruct (get_prop (get_prop _ "error") "message") as [mv|] eqn:Hm;
    try discriminate;
    destruct (truthy (Some mv)) eqn:Ht; try discriminate;
    exists mv; repeat split; try assumption;
    unfold error_of in H; destruct (to_string mv); [congruence|discriminate].
Qed.

(** Sample upstream behaviours. *)
Definition err_body (m : jval) : body := BodyJson (JObj [("error", JObj [("message", m)])]).

Definition env_500_then_200 (i : nat) : outcome :=
  match i with
  | O => Resp (mkResponse 500 (err_body (JStr "boom")))
  | _ => Resp (mkResponse 200 (BodyJson (JObj [])))
  end.

Definition env_429_429_200 (i : nat) : outcome :=
  match i with
  | O | 1 => Resp (mkResponse 429 (BodyJson (JObj [])))
  | _ => Resp (mkResponse 200 (BodyJson (JObj [("ok", JBool true)])))
  end.

Definition env_500_empty_message (i : nat) : outcome :=
  Resp (mkResponse 500 (err_body (JArr []))).

(** C1 (counterexample): a 500 response carrying an error message is not
    terminal: the wrapper sleeps 1 s, calls again, and resolves with the
    body of the 200 that follows. *)
Lemma non429_error_then_ok_resolves :
  fetchWithBackoff env_500_then_200 5
  = ([EvFetch 0; EvSleep 1000; EvFetch 1], Resolved (JObj [])).
Proof. vm_compute. reflexivity. Qed.

(** C1 (amended): when attempt [i] gets a response that is neither OK
    nor 429, the wrapper throws the error parsed from the body; its own
    [catch] rethrows it only on the last attempt (the call then fails with
    that message), and otherwise sleeps the current delay, doubles it
    and retries. *)
Theorem go_non429_error_retried env n i d r :
  env i = Resp r -> ok r = false -> status r <> 429%Z ->
  go env (S n) i d
  = match n with
    | O => ([EvFetch i], Rejected (error_message r))
    | _ => let '(t, res) := go env n (S i) (d * 2)%Z in
           (EvFetch i :: EvSleep d :: t, res)
    end.
Proof.
  intros Er Hok H429. cbn [go]. rewrite Er, Hok.
  apply Z.eqb_neq in H429. rewrite H429. reflexivity.
Qed.

Lemma go_non429_error_retried_witness :
  env_500_then_200 0 = Resp (mkResponse 500 (err_body (JStr "boom")))
  /\ go env_500_then_200 5 0 1000
     = let '(t, res) := go env_500_then_200 4 1 2000 in
       (EvFetch 0 :: EvSleep 1000 :: t, res).
Proof.
  split; [reflexivity|].
  apply (go_non429_error_retried env_500_then_200 4 0 1000
           (mkResponse 500 (err_body (JStr "boom")))); [reflexivity|reflexivity|discriminate].
Defined.

(** C3: if every attempt before attempt [j] gets a 429 and attempt [j],
    within the budget, gets a 2xx response with a JSON body, the wrapper
    resolves with that body. *)
Theorem backoff_429_then_ok_resolves env maxRetries j v :
  j < maxRetries ->
  (forall k, k < j -> is_429 (env k)) ->
  (exists r, env j = Resp r /\ ok r = true /\ rbody r = BodyJson v) ->
  snd (fetchWithBackoff env maxRetries) = Resolved v.
Proof.
  intros Hj H429 Hok. unfold fetchWithBackoff.
  apply (go_429_then_ok env maxRetries 0 1000 j v); [lia|lia| |exact Hok].
  intros k Hk. apply H429. lia.
Qed.

Lemma backoff_429_then_ok_resolves_witness :
  snd (fetchWithBackoff env_429_429_200 5) = Resolved (JObj [("ok", JBool true)]).
Proof.
  apply (backoff_429_then_ok_resolves env_429_429_200 5 2); [lia| |].
  - intros k Hk. destruct k as [|[|k]]; simpl; [reflexivity|reflexivity|lia].
  - eexists. split; [reflexivity|split; reflexivity].
Defined.

(** C4: every run performs a prefix of [Fetch 0; Sleep 1000; Fetch 1;
    Sleep 2000; Fetch 2; Sleep 4000; ...]: the sleep right before retry
    attempt [k >= 1] is [1000 * 2^(k-1)] ms, whatever happened in
    earlier invocations. *)
Theorem backoff_delay_schedule env maxRetries :
  (exists len, fst (fetchWithBackoff env maxRetries) = map pattern_ev (seq 0 len))
  /\ (forall k, 1 <= k ->
        pattern_ev (2 * k) = EvFetch k
        /\ pattern_ev (2 * k - 1) = EvSleep (1000 * 2 ^ (Z.of_nat k - 1))%Z).
Proof.
  split.
  - apply (go_schedule env maxRetries 0 1000). reflexivity.
  - intros k Hk. split; [apply pattern_fetch|].
    destruct k as [|k]; [lia|].
    replace (2 * S k - 1) with (S (2 * k)) by lia.
    rewrite pattern_sleep.
    replace (Z.of_nat (S k) - 1)%Z with (Z.of_nat k) by lia. reflexivity.
Qed.

(** C5 (code bug): five 500 responses whose error body is
    [{"error":{"message":[]}}]. The fallback [|| `HTTP error! ...`]
    tests the raw value, and [[]] is truthy, so it is passed to
    [new Error], whose message [String([])] is empty: the call fails
    with an empty message. *)
Lemma all_fail_empty_message :
  snd (fetchWithBackoff env_500_empty_message 5) = Rejected "".
Proof. vm_compute. reflexivity. Qed.

(** If no attempt gets an OK response, the call fails with the error
    thrown by the last attempt, or with the generic error when the last
    attempt got a 429 (or there was none); that message is empty only
    when the last attempt itself produced an empty message. *)
Theorem backoff_all_fail_rejects env maxRetries :
  (forall k, k < maxRetries -> not_ok (env k)) ->
  snd (fetchWithBackoff env maxRetries) = Rejected (last_failure env maxRetries)
  /\ (last_failure env maxRetries = "" ->
      exists k, maxRetries = S k /\ empty_message_source (env k)).
Proof.
  intros Hf. split.
  - unfold fetchWithBackoff. rewrite (go_all_fail env maxRetries 0 1000).
    + reflexivity.
    + intros k Hk. apply Hf. lia.
  - destruct maxRetries as [|k]; [discriminate|].
    unfold last_failure, attempt_error. intros He. exists k. split; [reflexivity|].
    destruct (env k) as [r|e].
    + destruct (Z.eqb (status r) 429) eqn:E429; [discriminate|].
      right. exists r. split; [reflexivity|]. split; [apply Z.eqb_neq; exact E429|].
      apply error_message_empty. exact He.
    + left. subst e. reflexivity.
Qed.

Lemma backoff_all_fail_rejects_witness :
  snd (fetchWithBackoff env_429_429_200 2) = Rejected generic_error.
Proof.
  destruct (backoff_all_fail_rejects env_429_429_200 2) as [H _].
  - intros k Hk. destruct k as [|[|k]]; simpl; [reflexivity|reflexivity|lia].
  - exact H.
Defined.

End BackoffFacts.

(** ** The concept-list parser *)

Module ParserFacts.

Local Open Scope list_scope.

Lemma count_while_le p l : count_while p l <= List.length l.
Proof. induction l as [|c l IH]; simpl; [lia|]. destruct (p c); simpl; lia. Qed.

Lemma count_while_app_lt p l r :
  count_while p l < List.length l -> count_while p (l ++ r) = count_while p l.
Proof.
  induction l as [|c l IH]; simpl; [lia|].
  destruct (p c); [|reflexivity]. intros H. rewrite IH by lia. reflexivity.
Qed.

Lemma count_while_app_le p l r : count_while p l <= count_while p (l ++ r).
Proof.
  induction l as [|c l IH]; simpl; [lia|]. destruct (p c); lia.
Qed.

Lemma count_while_firstn p m l :
  count_while p (firstn m l) = Nat.min (count_while p l) m.
Proof.
  revert l. induction m as [|m IH]; intros [|c l]; simpl; try lia.
  destruct (p c); simpl; [rewrite IH; lia|lia].
Qed.

Lemma skipn_cons_lt {A} d (l rest : list A) c :
  skipn d l = c :: rest -> d < List.length l.
Proof.
  intros H. apply (f_equal (@List.length A)) in H.
  rewrite length_skipn in H. simpl in H. lia.
Qed.

(** A match that starts in a prefix still starts there in the whole. *)
Lemma match_at_app l r : match_at (l ++ r) = None -> match_at l = None.
Proof.
  unfold match_at. intros H.
  destruct (Nat.eqb (count_while is_digit l) 0) eqn:Hd; [reflexivity|].
  destruct (skipn (count_while is_digit l) l) as [|c rest] eqn:Hs; [reflexivity|].
  pose proof (skipn_cons_lt _ _ _ _ Hs) as Hlt.
  rewrite (count_while_app_lt _ _ _ Hlt), Hd, skipn_app in H.
  replace (count_while is_digit l - List.length l) with 0 in H by lia.
  rewrite Hs in H. simpl in H.
  destruct (Ascii.eqb c "."%char); [|reflexivity].
  destruct (Nat.eqb (count_while is_ws rest) 0) eqn:Hw; [reflexivity|].
  pose proof (count_while_app_le is_ws rest r).
  destruct (Nat.eqb (count_while is_ws (rest ++ r)) 0) eqn:Hw'; [|discriminate].
  apply Nat.eqb_eq in Hw'. apply Nat.eqb_neq in Hw. lia.
Qed.

(** The greedy [\s+] ends the match exactly: cutting the text after the
    match leaves a whole match. *)
Lemma match_at_firstn l n :
  match_at l = Some n ->
  match_at (firstn n l) = Some n /\ 1 <= n /\ n <= List.length l.
Proof.
  unfold match_at.
  destruct (Nat.eqb (count_while is_digit l) 0) eqn:Hd; [discriminate|].
  destruct (skipn (count_while is_digit l) l) as [|c rest] eqn:Hs; [discriminate|].
  destruct (Ascii.eqb c "."%char) eqn:Hc; [|discriminate].
  destruct (Nat.eqb (count_while is_ws rest) 0) eqn:Hw; [discriminate|].
  intros H. injection H as <-.
  set (d := count_while is_digit l) in *. set (w := count_while is_ws rest) in *.
  pose proof (count_while_le is_ws rest) as Hwl.
  assert (Hlen : List.length l = d + S (List.length rest)).
  { pose proof (skipn_cons_lt _ _ _ _ Hs) as Hlt.
    apply (f_equal (@List.length ascii)) in Hs. rewrite length_skipn in Hs.
    simpl in Hs. lia. }
  pose proof Hd as Hd0. pose proof Hw as Hw1.
  apply Nat.eqb_neq in Hd. apply Nat.eqb_neq in Hw.
  split; [|lia].
  rewrite count_while_firstn. fold d.
  replace (Nat.min d (d + 1 + w)) with d by lia.
  rewrite Hd0.
  rewrite skipn_firstn_comm, Hs.
  replace (d + 1 + w - d) with (S w) by lia. simpl firstn.
  cbv beta iota. rewrite Hc, count_while_firstn. fold w.
  replace (Nat.min w w) with w by lia.
  destruct (Nat.eqb w 0) eqn:Hw0; [apply Nat.eqb_eq in Hw0; lia|]. reflexivity.
Qed.

Definition rebuild (f0 : list ascii) (pairs : list (list ascii * list ascii)) : list ascii :=
  f0 ++ List.concat (map (fun p => fst p ++ snd p) pairs).

Lemma skipn_app_one {A} j (cur : list A) c :
  j <= List.length cur -> skipn j (cur ++ [c]) = skipn j cur ++ [c].
Proof.
  intros Hj. rewrite skipn_app.
  replace (j - List.length cur) with 0 by lia. reflexivity.
Qed.

Lemma split_go_spec fuel s cur :
  List.length s < fuel ->
  (forall j, j < List.length cur -> match_at (skipn j cur ++ s) = None) ->
  exists f0 pairs,
    split_go fuel s cur = f0 :: map snd pairs
    /\ cur ++ s = rebuild f0 pairs
    /\ Forall (fun p => is_sep (fst p)) pairs
    /\ no_sep f0 /\ Forall (fun p => no_sep (snd p)) pairs.
Proof.
  revert s cur. induction fuel as [|f IH]; intros s cur Hf Hcur; [lia|].
  destruct s as [|c s'].
  - exists cur, []. unfold rebuild. simpl. rewrite !app_nil_r.
    repeat split; try constructor.
    intros j Hj. specialize (Hcur j Hj). rewrite app_nil_r in Hcur. exact Hcur.
  - cbn [split_go]. destruct (match_at (c :: s')) as [n|] eqn:Hm.
    + destruct (match_at_firstn _ _ Hm) as (Hsep & Hn1 & Hnl).
      destruct (IH (skipn n (c :: s')) []) as (f0 & pairs & Es & Er & Hs & Hn0 & Hns).
      { rewrite length_skipn. simpl List.length in *. lia. }
      { simpl. lia. }
      exists cur, ((firstn n (c :: s'), f0) :: pairs).
      split; [rewrite Es; reflexivity|].
      split; [|split; [|split]].
      * unfold rebuild in *. simpl in Er. simpl.
        rewrite <- app_assoc, <- Er, firstn_skipn. reflexivity.
      * constructor; [|exact Hs]. unfold is_sep. simpl fst.
        rewrite length_firstn. replace (Nat.min n (List.length (c :: s'))) with n by lia.
        exact Hsep.
      * intros j Hj. apply (match_at_app _ (c :: s')). apply Hcur. exact Hj.
      * constructor; [exact Hn0|exact Hns].
    + destruct (IH s' (cur ++ [c])) as (f0 & pairs & Es & Er & Hs & Hn0 & Hns).
      { simpl in Hf. lia. }
      { intros j Hj. rewrite length_app in Hj. simpl in Hj.
        rewrite skipn_app_one by lia. rewrite <- app_assoc. simpl.
        destruct (Nat.eq_dec j (List.length cur)) as [->|Hne].
        - rewrite skipn_all. exact Hm.
        - apply Hcur. lia. }
      exists f0, pairs. split; [exact Es|]. split; [|auto].
      rewrite <- Er, <- app_assoc. reflexivity.
Qed.

(** [js_split] cuts the text at the matches of the pattern, leftmost
    first: the text is the first fragment followed by (separator,
    fragment) pairs, every separator is a whole match, and no fragment
    contains a match. *)
Lemma js_split_spec s :
  exists f0 pairs,
    js_split s = f0 :: map snd pairs
    /\ s = rebuild f0 pairs
    /\ Forall (fun p => is_sep (fst p)) pairs
    /\ Forall no_sep (js_split s).
Proof.
  destruct (split_go_spec (S (List.length s)) s []) as (f0 & pairs & Es & Er & Hs & Hn0 & Hns).
  - lia.
  - simpl. lia.
  - exists f0, pairs. unfold js_split. rewrite Es. repeat split; [exact Er|exact Hs|].
    constructor; [exact Hn0|]. apply Forall_map. exact Hns.
Qed.

Section Ids.

Variable now : nat -> Z.
Hypothesis now_mono : forall a b, a <= b -> (now a <= now b)%Z.

Lemma ids_above k l x :
  In x (map id (map_index (to_concept now) k l)) -> (now k + Z.of_nat k <= x)%Z.
Proof.
  revert k. induction l as [|c l IH]; intros k H; [contradiction|].
  destruct H as [<-|H]; [simpl; lia|].
  specialize (IH (S k) H). pose proof (now_mono k (S k) ltac:(lia)). lia.
Qed.

Lemma ids_nodup k l : NoDup (map id (map_index (to_concept now) k l)).
Proof.
  revert k. induction l as [|c l IH]; intros k; simpl; constructor; [|apply IH].
  intros Hin. apply ids_above in Hin. pose proof (now_mono k (S k) ltac:(lia)). lia.
Qed.

End Ids.

Lemma texts_of_concepts now k l :
  map text (map_index (to_concept now) k l) = map (fun c => string_of_list_ascii (trim c)) l.
Proof. revert k. induction l; intros k; simpl; f_equal; auto. Qed.

Lemma concepts_fields now k l :
  Forall (fun c => nonblank c = true) l ->
  Forall (fun c => text c <> "" /\ imageUrl c = None) (map_index (to_concept now) k l).
Proof.
  revert k. induction l as [|c l IH]; intros k Hl; simpl; constructor.
  - inversion Hl as [|? ? Hc _]; subst. unfold nonblank in Hc. apply Nat.ltb_lt in Hc.
    split; [|reflexivity]. simpl.
    destruct (trim c); simpl in *; [lia|discriminate].
  - apply IH. inversion Hl; assumption.
Qed.

Definition nl : string := String (ascii_of_nat 10) EmptyString.

(** The sample of the spec: ["1. Alpha\n2. Beta\n3. "]. *)
Definition sample : string := "1. Alpha" ++ nl ++ "2. Beta" ++ nl ++ "3. ".

(** C2: the parser cuts the text at the matches of [/\d+\.\s+/] (the
    text is the fragments and the separators in order, every separator a
    whole match, no fragment containing one), keeps the fragments that
    are not blank, in order, as their trimmed texts, with no image; the
    ids [Date.now() + index] are pairwise distinct as long as the clock
    does not go back. On ["1. Alpha\n2. Beta\n3. "] it gives exactly
    ["Alpha"] and ["Beta"], in that order, with distinct ids. *)
Theorem parse_concepts_spec (now : nat -> Z) (t : string) :
  (forall a b, a <= b -> (now a <= now b)%Z) ->
  (exists f0 pairs,
      js_split (list_ascii_of_string t) = f0 :: map snd pairs
      /\ list_ascii_of_string t = rebuild f0 pairs
      /\ Forall (fun p => is_sep (fst p)) pairs
      /\ Forall no_sep (js_split (list_ascii_of_string t)))
  /\ map text (parse_concepts now t)
     = map (fun c => string_of_list_ascii (trim c))
           (filter nonblank (js_split (list_ascii_of_string t)))
  /\ Forall (fun c => text c <> "" /\ imageUrl c = None) (parse_concepts now t)
  /\ NoDup (map id (parse_concepts now t))
  /\ parse_concepts now sample
     = [mkConcept (now 0%nat + 0)%Z "Alpha" None; mkConcept (now 1%nat + 1)%Z "Beta" None]
  /\ (now 0%nat + 0 <> now 1%nat + 1)%Z.
Proof.
  intros Hmono. split; [apply js_split_spec|].
  split; [apply texts_of_concepts|].
  split; [apply concepts_fields, Forall_forall; intros c Hc; apply filter_In in Hc; apply Hc|].
  split; [apply ids_nodup; exact Hmono|].
  split; [reflexivity|].
  pose proof (Hmono 0 1 ltac:(lia)). lia.
Qed.

Lemma parse_concepts_spec_witness :
  parse_concepts (fun _ => 1760000000000%Z) sample
  = [mkConcept 1760000000000 "Alpha" None; mkConcept 1760000000001 "Beta" None].
Proof.
  destruct (parse_concepts_spec (fun _ => 1760000000000%Z) sample) as (_ & _ & _ & _ & E & _).
  - intros a b _. lia.
  - rewrite E. reflexivity.
Defined.

End ParserFacts.

(** ** The UI actions *)

Module SessionFacts.

(** The image call's answer in the spec's example. *)
Definition image_json : jval :=
  JObj [("predictions", JArr [JObj [("bytesBase64Encoded", JStr "QUJD")]])].

Definition env_image (i : nat) : outcome := Resp (mkResponse 200 (BodyJson image_json)).

Definition env_offline (i : nat) : outcome := Reject "Failed to fetch".

Definition c_old : concept := mkConcept 1 "Old idea" None.

Definition st_with_concepts : session :=
  mkSession "key" "A brief" [c_old] false None None.

Definition c_other : concept := mkConcept 2 "Other idea" None.

Definition st_two_concepts : session :=
  mkSession "key" "A brief" [c_old; c_other] false None None.

(** The concepts with an id other than [k] are kept by [set_image k]. *)
Lemma set_image_keeps_others k url l :
  (forall x, In x l -> id x <> k) -> set_image k url l = l.
Proof.
  intros H. unfold set_image. rewrite <- (map_id l) at 2. apply map_ext_in.
  intros x Hx. apply H, Z.eqb_neq in Hx. rewrite Hx. reflexivity.
Qed.

(** C6: with an empty brief, [generateIdeas] calls nothing, sets the
    validation error, and leaves the concepts and the loading flag as
    they were. *)
Theorem generateIdeas_empty_brief st env now :
  brief st = "" ->
  fst (generateIdeas st env now) = []
  /\ error (snd (generateIdeas st env now)) = Some "Please enter a creative brief."
  /\ concepts (snd (generateIdeas st env now)) = concepts st
  /\ isLoadingIdeas (snd (generateIdeas st env now)) = isLoadingIdeas st.
Proof.
  intros Hb. unfold generateIdeas. rewrite Hb. simpl. repeat split.
Qed.

Lemma generateIdeas_empty_brief_witness :
  fst (generateIdeas (setBrief "" st_with_concepts) env_image (fun _ => 0%Z)) = [].
Proof.
  apply (generateIdeas_empty_brief (setBrief "" st_with_concepts) env_image (fun _ => 0%Z)).
  reflexivity.
Defined.

(** C7: the concepts' ids being distinct, as the parser makes them,
    when the image call for a concept [c] of the list resolves with
    [{ predictions: [{ bytesBase64Encoded: "QUJD" }] }], [c] is replaced
    in place by the same id and text with the image
    ["data:image/png;base64,QUJD"], and every other concept of the list
    is left as it was. *)
Theorem visualize_success_sets_target st c env :
  NoDup (map id (concepts st)) ->
  In c (concepts st) ->
  snd (fetchWithBackoff env 5) = Resolved image_json ->
  exists l1 l2,
    concepts st = (l1 ++ c :: l2)%list
    /\ concepts (snd (visualizeConcept st (id c) (text c) env))
       = (l1 ++ mkConcept (id c) (text c) (Some "data:image/png;base64,QUJD") :: l2)%list.
Proof.
  intros Hnd Hin Hres.
  destruct (in_split c (concepts st) Hin) as (l1 & l2 & El).
  exists l1, l2. split; [exact El|].
  rewrite El, map_app in Hnd. simpl in Hnd. apply NoDup_remove_2 in Hnd.
  unfold visualizeConcept.
  destruct (fetchWithBackoff env 5) as [t res]. simpl in Hres. subst res.
  simpl. rewrite El. unfold set_image at 1. rewrite map_app. simpl.
  rewrite Z.eqb_refl. fold (set_image (id c) "data:image/png;base64,QUJD" l1).
  fold (set_image (id c) "data:image/png;base64,QUJD" l2).
  rewrite !set_image_keeps_others; [reflexivity| |];
    intros x Hx E; apply Hnd; rewrite <- E; apply in_map with (f := id) in Hx;
    apply in_or_app; auto.
Qed.

Lemma visualize_success_sets_target_witness :
  exists l1 l2,
    concepts st_two_concepts = (l1 ++ c_old :: l2)%list
    /\ concepts (snd (visualizeConcept st_two_concepts 1 "Old idea" env_image))
       = (l1 ++ mkConcept 1 "Old idea" (Some "data:image/png;base64,QUJD") :: l2)%list.
Proof.
  apply (visualize_success_sets_target st_two_concepts c_old env_image).
  - simpl. constructor; [intros [H|[]]; discriminate|].
    constructor; [intros []|constructor].
  - left. reflexivity.
  - vm_compute. reflexivity.
Defined.

(** C8 (counterexample): a failed generation after a successful one
    leaves no concepts: [generateIdeas] clears the list before calling. *)
Lemma failed_generation_clears_concepts :
  let st' := snd (generateIdeas st_with_concepts env_offline (fun _ => 0%Z)) in
  concepts st_with_concepts = [c_old]
  /\ concepts st' = []
  /\ error st' = Some "Failed to generate ideas. Failed to fetch".
Proof. vm_compute. repeat split. Qed.

(** C8 (amended): a failed image generation leaves the concept list as
    it was; a failed idea generation leaves it as it was when the brief
    is empty (validation error) and empty otherwise, since the action
    clears it when it starts. *)
Theorem terminal_errors_and_concepts :
  (forall st conceptId conceptText env,
      error (snd (visualizeConcept st conceptId conceptText env)) <> None ->
      concepts (snd (visualizeConcept st conceptId conceptText env)) = concepts st)
  /\ (forall st env now,
      error (snd (generateIdeas st env now)) <> None ->
      concepts (snd (generateIdeas st env now))
      = if String.eqb (brief st) "" then concepts st else []).
Proof.
  split.
  - intros st cid ctext env. unfold visualizeConcept.
    destruct (fetchWithBackoff env 5) as [t [v|m]]; simpl; [|reflexivity].
    destruct (image_url v); simpl; [congruence|reflexivity].
  - intros st env now. unfold generateIdeas.
    destruct (String.eqb (brief st) "") eqn:Hb; [reflexivity|].
    destruct (fetchWithBackoff env 5) as [t [v|m]]; simpl; [|reflexivity].
    destruct (truthy (candidate_text v)); simpl; [|reflexivity].
    destruct (candidate_text v) as [[]|]; simpl; try reflexivity. congruence.
Qed.

Lemma terminal_errors_and_concepts_witness :
  concepts (snd (visualizeConcept st_with_concepts 1 "Old idea" env_offline)) = [c_old]
  /\ concepts (snd (generateIdeas st_with_concepts env_offline (fun _ => 0%Z))) = [].
Proof.
  destruct terminal_errors_and_concepts as [Hv Hg]. split.
  - apply Hv. vm_compute. discriminate.
  - apply Hg. vm_compute. discriminate.
Defined.

Lemma generateIdeas_flag st env now :
  isLoadingIdeas st = false -> isLoadingIdeas (snd (generateIdeas st env now)) = false.
Proof.
  intros H. unfold generateIdeas.
  destruct (String.eqb (brief st) "") eqn:Hb; [exact H|].
  destruct (fetchWithBackoff env 5) as [t res]. reflexivity.
Qed.

Lemma visualizeConcept_flag st conceptId conceptText env :
  loadingImageId (snd (visualizeConcept st conceptId conceptText env)) = None.
Proof.
  unfold visualizeConcept. destruct (fetchWithBackoff env 5) as [t res]. reflexivity.
Qed.

Lemma visualizeConcept_keeps_ideas_flag st conceptId conceptText env :
  isLoadingIdeas (snd (visualizeConcept st conceptId conceptText env)) = isLoadingIdeas st.
Proof.
  unfold visualizeConcept. destruct (fetchWithBackoff env 5) as [t [v|m]]; simpl; [|reflexivity].
  destruct (image_url v); reflexivity.
Qed.

Lemma generateIdeas_keeps_image_flag st env now :
  loadingImageId (snd (generateIdeas st env now)) = loadingImageId st.
Proof.
  unfold generateIdeas. destruct (String.eqb (brief st) ""); [reflexivity|].
  destruct (fetchWithBackoff env 5) as [t [v|m]]; simpl; [|reflexivity].
  destruct (truthy (candidate_text v)); simpl; [|reflexivity].
  destruct (candidate_text v) as [[]|]; reflexivity.
Qed.

Lemma reachable_idle st :
  reachable st -> isLoadingIdeas st = false /\ loadingImageId st = None.
Proof.
  induction 1 as [|st st' _ [IH1 IH2] Hs]; [split; reflexivity|].
  destruct Hs as [st0 k|st0 b|st0|st0 env now Hl _|st0 c env _ _];
    try (split; assumption).
  - split; [apply generateIdeas_flag; exact IH1|].
    rewrite generateIdeas_keeps_image_flag. exact IH2.
  - split; [rewrite visualizeConcept_keeps_ideas_flag; exact IH1|].
    apply visualizeConcept_flag.
Qed.

(** C10: from any state the user can reach, a finished [generateIdeas]
    leaves [isLoadingIdeas] false and a finished [visualizeConcept]
    leaves [loadingImageId] null. *)
Theorem loading_flags_cleared st :
  reachable st ->
  (forall env now, isLoadingIdeas (snd (generateIdeas st env now)) = false)
  /\ (forall conceptId conceptText env,
        loadingImageId (snd (visualizeConcept st conceptId conceptText env)) = None).
Proof.
  intros Hr. destruct (reachable_idle st Hr) as [H1 _]. split.
  - intros env now. apply generateIdeas_flag. exact H1.
  - intros. apply visualizeConcept_flag.
Qed.

Lemma loading_flags_cleared_witness :
  isLoadingIdeas (snd (generateIdeas initial env_offline (fun _ => 0%Z))) = false.
Proof.
  destruct (loading_flags_cleared initial reach_init) as [H _]. apply H.
Defined.

End SessionFacts.

(** ** The proxy *)

Module ProxyFacts.

(** C9: a JSON body without [prompt] gets 400 with
    [{ error: "Prompt is required." }] before any credential is asked
    for or the provider is called. *)
Theorem proxy_missing_prompt b auth upstream :
  b <> JNull -> get_prop (Some b) "prompt" = None ->
  generate_image (Some b) auth upstream
  = ([], mkReply 400 (JObj [("error", JStr "Prompt is required.")])).
Proof.
  intros Hn Hp. unfold generate_image.
  destruct b; try congruence; simpl in Hp |- *; try rewrite Hp; reflexivity.
Qed.

Lemma proxy_missing_prompt_witness :
  generate_image (Some (JObj [])) (AuthToken "t") (Reject "unused")
  = ([], mkReply 400 (JObj [("error", JStr "Prompt is required.")])).
Proof. apply proxy_missing_prompt; [discriminate|reflexivity]. Defined.

End ProxyFacts.

(* ================================================================== *)
(** * Further properties of the code *)

(** ** The retry wrapper: cost bounds and the unretried 2xx path *)

Module BackoffMore.

Import BackoffFacts.

Fixpoint fetch_count (t : list event) : nat :=
  match t with
  | [] => 0
  | EvFetch _ :: rest => S (fetch_count rest)
  | EvSleep _ :: rest => fetch_count rest
  end.

Fixpoint sleep_total (t : list event) : Z :=
  match t with
  | [] => 0
  | EvFetch _ :: rest => sleep_total rest
  | EvSleep d :: rest => d + sleep_total rest
  end.

(** One loop iteration either ends the run after its call or calls,
    sleeps the current delay and goes on with the doubled delay. *)
Lemma go_shape env n i d :
  fst (go env (S n) i d) = [EvFetch i]
  \/ fst (go env (S n) i d) = EvFetch i :: EvSleep d :: fst (go env n (S i) (d * 2)%Z).
Proof.
  cbn [go]. destruct (env i) as [r|e].
  - destruct (ok r); [left; reflexivity|].
    destruct (Z.eqb (status r) 429).
    + right. destruct (go env n (S i) (d * 2)%Z) as [t res]. reflexivity.
    + destruct n as [|n']; [left; reflexivity|].
      right. destruct (go env (S n') (S i) (d * 2)%Z) as [t res]. reflexivity.
  - destruct n as [|n']; [left; reflexivity|].
    right. destruct (go env (S n') (S i) (d * 2)%Z) as [t res]. reflexivity.
Qed.

Lemma go_bounds env n i d :
  (0 <= d)%Z ->
  fetch_count (fst (go env n i d)) <= n
  /\ (sleep_total (fst (go env n i d)) <= d * (2 ^ Z.of_nat n - 1))%Z.
Proof.
  revert i d. induction n as [|n IH]; intros i d Hd; [simpl; lia|].
  assert (Hp : (2 ^ Z.of_nat (S n) = 2 * 2 ^ Z.of_nat n)%Z).
  { rewrite Nat2Z.inj_succ, Z.pow_succ_r by lia. ring. }
  assert (Hpos : (1 <= 2 ^ Z.of_nat n)%Z).
  { apply (Z.pow_le_mono_r 2 0); lia. }
  destruct (go_shape env n i d) as [E|E]; rewrite E.
  - cbn [fetch_count sleep_total]. split; [lia|]. rewrite Hp. nia.
  - destruct (IH (S i) (d * 2)%Z ltac:(lia)) as [H1 H2].
    cbn [fetch_count sleep_total]. split; [lia|]. rewrite Hp. nia.
Qed.

(** Cost of a call: at most [maxRetries] network calls (at least one
    when [maxRetries >= 1], the first being attempt 0), and at most
    [1000 * (2^maxRetries - 1)] ms of sleeping in total (31 s for the
    default of 5). *)
Theorem backoff_cost env maxRetries :
  fetch_count (fst (fetchWithBackoff env maxRetries)) <= maxRetries
  /\ (sleep_total (fst (fetchWithBackoff env maxRetries))
      <= 1000 * (2 ^ Z.of_nat maxRetries - 1))%Z
  /\ (1 <= maxRetries ->
      exists rest, fst (fetchWithBackoff env maxRetries) = EvFetch 0 :: rest).
Proof.
  unfold fetchWithBackoff.
  destruct (go_bounds env maxRetries 0 1000 ltac:(lia)) as [H1 H2].
  split; [exact H1|]. split; [exact H2|].
  intros Hm. destruct maxRetries as [|n]; [lia|].
  destruct (go_shape env n 0 1000) as [E|E]; rewrite E; eexists; reflexivity.
Qed.

Lemma backoff_cost_witness :
  exists rest, fst (fetchWithBackoff env_429_429_200 5) = EvFetch 0 :: rest.
Proof. apply (backoff_cost env_429_429_200 5). lia. Defined.

Lemma go_429_then_2xx env n i d j r :
  i <= j -> j < i + n ->
  (forall k, i <= k < j -> is_429 (env k)) ->
  env j = Resp r -> ok r = true ->
  fetch_count (fst (go env n i d)) = S (j - i)
  /\ snd (go env n i d) = match rbody r with
                          | BodyJson v => Resolved v
                          | BodyMalformed e => Rejected e
                          end.
Proof.
  revert i d. induction n as [|n IH]; intros i d Hij Hjn H429 Ej Hok; [lia|].
  cbn [go]. destruct (Nat.eq_dec i j) as [->|Hne].
  - rewrite Ej, Hok. simpl. split; [lia|reflexivity].
  - pose proof (H429 i ltac:(lia)) as Hi. destruct (env i) as [r'|e]; [|contradiction].
    simpl in Hi. rewrite (ok_429 r' Hi), Hi. cbn [Z.eqb Pos.eqb].
    destruct (IH (S i) (d * 2)%Z) as [IH1 IH2]; try lia; try assumption.
    { intros k Hk. apply H429. lia. }
    destruct (go env n (S i) (d * 2)%Z) as [t res]. simpl in *.
    split; [lia|exact IH2].
Qed.

(** After [j] answers 429, a 2xx answer at attempt [j] (within the
    budget) ends the call: exactly [j + 1] network calls, and the call
    settles with that response's body, resolved with its JSON, or
    rejected with the parse error when the body is not JSON. The
    [return response.json()] is outside the reach of the retrying
    [catch], so a malformed 2xx body is never retried. *)
Theorem backoff_2xx_after_429s env maxRetries j r :
  j < maxRetries ->
  (forall k, k < j -> is_429 (env k)) ->
  env j = Resp r -> ok r = true ->
  fetch_count (fst (fetchWithBackoff env maxRetries)) = S j
  /\ snd (fetchWithBackoff env maxRetries) = match rbody r with
                                             | BodyJson v => Resolved v
                                             | BodyMalformed e => Rejected e
                                             end.
Proof.
  intros Hj H429 Ej Hok. unfold fetchWithBackoff.
  destruct (go_429_then_2xx env maxRetries 0 1000 j r) as [H1 H2]; try lia; try assumption.
  - intros k Hk. apply H429. lia.
  - rewrite Nat.sub_0_r in H1. split; assumption.
Qed.

Definition env_429_then_bad_json (i : nat) : outcome :=
  match i with
  | O => Resp (mkResponse 429 (BodyJson (JObj [])))
  | _ => Resp (mkResponse 200 (BodyMalformed "Unexpected token '<'"))
  end.

Lemma backoff_2xx_after_429s_witness :
  fetch_count (fst (fetchWithBackoff env_429_then_bad_json 5)) = 2
  /\ snd (fetchWithBackoff env_429_then_bad_json 5) = Rejected "Unexpected token '<'".
Proof.
  apply (backoff_2xx_after_429s env_429_then_bad_json 5 1
           (mkResponse 200 (BodyMalformed "Unexpected token '<'"))).
  - lia.
  - intros k Hk. destruct k as [|k]; [reflexivity|lia].
  - reflexivity.
  - reflexivity.
Defined.

End BackoffMore.

(** ** The parser: plain text and trimmed texts *)

Module ParserMore.

Import ParserFacts.
Local Open Scope list_scope.

(** A decision procedure for [no_sep]. *)
Definition no_sepb (f : list ascii) : bool :=
  forallb (fun j => match match_at (skipn j f) with None => true | Some _ => false end)
          (seq 0 (List.length f)).

Lemma no_sepb_spec f : no_sepb f = true -> no_sep f.
Proof.
  unfold no_sepb, no_sep. intros H j Hj.
  rewrite forallb_forall in H. specialize (H j).
  rewrite in_seq in H. specialize (H ltac:(lia)).
  destruct (match_at (skipn j f)); [discriminate|reflexivity].
Qed.

Lemma is_sep_nonempty m : is_sep m -> m <> [].
Proof. unfold is_sep. intros H ->. discriminate. Qed.

Lemma match_at_app_some l r : match_at l <> None -> match_at (l ++ r) <> None.
Proof. intros H H'. apply H. apply (match_at_app l r). exact H'. Qed.

Lemma js_split_no_sep s : no_sep s -> js_split s = [s].
Proof.
  intros Hs. destruct (js_split_spec s) as (f0 & pairs & Es & Er & Hsep & _).
  destruct pairs as [|[m f] pairs].
  - unfold rebuild in Er. simpl in Er. rewrite app_nil_r in Er. subst f0. exact Es.
  - exfalso. apply Forall_inv in Hsep as Hm. simpl in Hm.
    pose proof (is_sep_nonempty m Hm) as Hne.
    unfold rebuild in Er. simpl in Er.
    assert (Hsk : skipn (List.length f0) s
                  = m ++ (f ++ List.concat (map (fun p => fst p ++ snd p) pairs))).
    { rewrite Er, skipn_app, skipn_all, Nat.sub_diag. simpl. rewrite app_assoc. reflexivity. }
    assert (Hlt : List.length f0 < List.length s).
    { rewrite Er, !length_app. destruct m; [congruence|simpl; lia]. }
    pose proof (Hs _ Hlt) as Hn. rewrite Hsk in Hn.
    refine (match_at_app_some m _ _ Hn).
    unfold is_sep in Hm. rewrite Hm. discriminate.
Qed.

(** A text in which [/\d+\.\s+/] matches nowhere is one fragment: the
    parser gives the whole text, trimmed, as a single concept (none when
    it is blank). *)
Theorem parse_plain_text now t :
  no_sep (list_ascii_of_string t) ->
  parse_concepts now t
  = if nonblank (list_ascii_of_string t)
    then [to_concept now 0 (list_ascii_of_string t)] else [].
Proof.
  intros Hs. unfold parse_concepts. rewrite (js_split_no_sep _ Hs).
  simpl. destruct (nonblank (list_ascii_of_string t)); reflexivity.
Qed.

Lemma parse_plain_text_witness :
  parse_concepts (fun _ => 5%Z) "  A single idea, no list  "
  = [mkConcept 5 "A single idea, no list" None].
Proof.
  rewrite parse_plain_text.
  - reflexivity.
  - apply no_sepb_spec. vm_compute. reflexivity.
Defined.

Lemma drop_ws_head l c rest : drop_ws l = c :: rest -> is_ws c = false.
Proof.
  induction l as [|x l IH]; simpl; [discriminate|].
  destruct (is_ws x) eqn:Hx; [exact IH|]. intros H. injection H as <- _. exact Hx.
Qed.

Lemma drop_ws_suffix l : exists p, l = p ++ drop_ws l.
Proof.
  induction l as [|x l [p Hp]]; simpl; [exists []; reflexivity|].
  destruct (is_ws x); [exists (x :: p); simpl; f_equal; exact Hp|exists []; reflexivity].
Qed.

(** No white space at either end of a trimmed text. *)
Definition trimmed (l : list ascii) : Prop :=
  (forall c rest, l = c :: rest -> is_ws c = false)
  /\ (forall c init, l = init ++ [c] -> is_ws c = false).

Lemma trim_trimmed l : trimmed (trim l).
Proof.
  unfold trim. set (X := drop_ws l). split.
  - intros c rest H.
    destruct (drop_ws_suffix (rev X)) as [p Hp].
    set (Y := drop_ws (rev X)) in *.
    assert (HX : X = rev Y ++ rev p).
    { rewrite <- rev_app_distr, <- Hp, rev_involutive. reflexivity. }
    rewrite H in HX. simpl in HX.
    apply (drop_ws_head l c (rest ++ rev p)). fold X. rewrite HX. reflexivity.
  - intros c init H.
    apply (f_equal (@rev ascii)) in H. rewrite rev_involutive, rev_app_distr in H.
    simpl in H. exact (drop_ws_head _ _ _ H).
Qed.

(** Every concept text the parser produces starts and ends with a
    character that is not white space. *)
Theorem parse_texts_trimmed now t :
  Forall (fun c => text c <> "" /\ trimmed (list_ascii_of_string (text c)))
    (parse_concepts now t).
Proof.
  unfold parse_concepts.
  assert (Hf : Forall (fun f => nonblank f = true)
                 (filter nonblank (js_split (list_ascii_of_string t)))).
  { apply Forall_forall. intros f Hf. apply filter_In in Hf. apply Hf. }
  remember (filter nonblank (js_split (list_ascii_of_string t))) as fl eqn:E.
  clear E. generalize 0.
  induction Hf as [|f fs Hnb _ IH]; intros k; simpl; constructor; [|apply IH].
  unfold to_concept. simpl. split.
  - intros H. apply (f_equal list_ascii_of_string) in H.
    rewrite list_ascii_of_string_of_list_ascii in H.
    unfold nonblank in Hnb. rewrite H in Hnb. discriminate.
  - rewrite list_ascii_of_string_of_list_ascii. apply trim_trimmed.
Qed.

End ParserMore.

(** ** The UI actions: frames, outcomes, reachable states *)

Module SessionMore.

Import BackoffMore ParserFacts SessionFacts.

Definition image_prefix : string := "data:image/png;base64,".

Lemma image_url_prefix v url :
  image_url v = inl url -> exists b, url = image_prefix ++ b.
Proof.
  unfold image_url.
  repeat match goal with
         | |- context [match ?x with _ => _ end] => destruct x
         end; try discriminate; intros H; injection H as <-; eexists; reflexivity.
Qed.

(** [generateIdeas] never changes the API key, the brief or the image
    loading id. *)
Theorem generateIdeas_frame st env now :
  apiKey (snd (generateIdeas st env now)) = apiKey st
  /\ brief (snd (generateIdeas st env now)) = brief st
  /\ loadingImageId (snd (generateIdeas st env now)) = loadingImageId st.
Proof.
  unfold generateIdeas. destruct (String.eqb (brief st) ""); [repeat split|].
  destruct (fetchWithBackoff env 5) as [t [v|m]]; simpl; [|repeat split].
  destruct (truthy (candidate_text v)); simpl; [|repeat split].
  destruct (candidate_text v) as [[]|]; repeat split.
Qed.

Lemma fetchWithBackoff_5_calls env :
  1 <= fetch_count (fst (fetchWithBackoff env 5)) <= 5.
Proof.
  destruct (go_bounds env 5 0 1000 ltac:(lia)) as [H _].
  destruct (go_shape env 4 0 1000) as [E|E];
    unfold fetchWithBackoff in *; rewrite E in *; simpl in *; lia.
Qed.

(** With a non-empty brief, [generateIdeas] makes the calls of one
    [fetchWithBackoff] (between 1 and 5), clears the loading flag, and
    ends either without error and with the concepts parsed from the
    non-empty candidate text, or with an error that starts with
    ["Failed to generate ideas. "] and no concepts. *)
Theorem generateIdeas_outcome st env now :
  brief st <> "" ->
  fst (generateIdeas st env now) = fst (fetchWithBackoff env 5)
  /\ 1 <= fetch_count (fst (generateIdeas st env now)) <= 5
  /\ isLoadingIdeas (snd (generateIdeas st env now)) = false
  /\ ((error (snd (generateIdeas st env now)) = None
       /\ exists v s, snd (fetchWithBackoff env 5) = Resolved v
                      /\ candidate_text v = Some (JStr s) /\ s <> ""
                      /\ concepts (snd (generateIdeas st env now)) = parse_concepts now s)
      \/ (exists m, error (snd (generateIdeas st env now))
                    = Some ("Failed to generate ideas. " ++ m)
                    /\ concepts (snd (generateIdeas st env now)) = [])).
Proof.
  intros Hb. pose proof (fetchWithBackoff_5_calls env) as Hc.
  unfold generateIdeas. apply String.eqb_neq in Hb. rewrite Hb.
  destruct (fetchWithBackoff env 5) as [t res]. simpl in Hc.
  split; [reflexivity|]. split; [exact Hc|]. split; [destruct res; reflexivity|].
  destruct res as [v|m]; [|right; eexists; split; reflexivity].
  destruct (truthy (candidate_text v)) eqn:Ht; [|right; eexists; split; reflexivity].
  destruct (candidate_text v) as [[]|] eqn:Hct; simpl;
    try (right; eexists; split; reflexivity).
  left. split; [reflexivity|]. exists v, s. repeat split; try assumption.
  intros ->. simpl in Ht. discriminate.
Qed.

Lemma generateIdeas_outcome_witness :
  concepts (snd (generateIdeas st_with_concepts env_offline (fun _ => 0%Z))) = [].
Proof.
  destruct (generateIdeas_outcome st_with_concepts env_offline (fun _ => 0%Z))
    as (_ & _ & _ & [(_ & v & s & Hr & _)|(m & _ & Hc)]).
  - discriminate.
  - vm_compute in Hr. discriminate.
  - exact Hc.
Defined.

Lemma set_image_ids cid url cs : map id (set_image cid url cs) = map id cs.
Proof.
  induction cs as [|c cs IH]; simpl; [reflexivity|].
  destruct (Z.eqb (id c) cid); simpl; f_equal; exact IH.
Qed.

Lemma set_image_texts cid url cs : map text (set_image cid url cs) = map text cs.
Proof.
  induction cs as [|c cs IH]; simpl; [reflexivity|].
  destruct (Z.eqb (id c) cid); simpl; f_equal; exact IH.
Qed.

(** [visualizeConcept] ends with [loadingImageId] null and either no
    error and the image ["data:image/png;base64,..."] set on the
    concepts carrying the id, or an error that starts with
    ["Failed to generate image. "] and the concepts untouched. *)
Theorem visualizeConcept_outcome st conceptId conceptText env :
  fst (visualizeConcept st conceptId conceptText env) = fst (fetchWithBackoff env 5)
  /\ loadingImageId (snd (visualizeConcept st conceptId conceptText env)) = None
  /\ ((exists b, error (snd (visualizeConcept st conceptId conceptText env)) = None
                 /\ concepts (snd (visualizeConcept st conceptId conceptText env))
                    = set_image conceptId (image_prefix ++ b) (concepts st))
      \/ (exists m, error (snd (visualizeConcept st conceptId conceptText env))
                    = Some ("Failed to generate image. " ++ m)
                    /\ concepts (snd (visualizeConcept st conceptId conceptText env))
                       = concepts st)).
Proof.
  unfold visualizeConcept. destruct (fetchWithBackoff env 5) as [t [v|m]];
    simpl; (split; [reflexivity|]); (split; [reflexivity|]);
    [|right; eexists; split; reflexivity].
  destruct (image_url v) as [url|m] eqn:Hu; simpl;
    [|right; eexists; split; reflexivity].
  left. destruct (image_url_prefix v url Hu) as [b ->]. exists b. split; reflexivity.
Qed.

(** [visualizeConcept] never adds, drops, reorders or rewrites concepts:
    their ids and texts stay as they were, and so do the API key, the
    brief and the ideas loading flag. *)
Theorem visualizeConcept_frame st conceptId conceptText env :
  map id (concepts (snd (visualizeConcept st conceptId conceptText env))) = map id (concepts st)
  /\ map text (concepts (snd (visualizeConcept st conceptId conceptText env)))
     = map text (concepts st)
  /\ apiKey (snd (visualizeConcept st conceptId conceptText env)) = apiKey st
  /\ brief (snd (visualizeConcept st conceptId conceptText env)) = brief st
  /\ isLoadingIdeas (snd (visualizeConcept st conceptId conceptText env)) = isLoadingIdeas st.
Proof.
  unfold visualizeConcept. destruct (fetchWithBackoff env 5) as [t [v|m]]; simpl;
    [|repeat split].
  destruct (image_url v) as [url|m]; simpl; [|repeat split].
  rewrite set_image_ids, set_image_texts. repeat split.
Qed.

Lemma set_image_absent cid url cs :
  ~ In cid (map id cs) -> set_image cid url cs = cs.
Proof.
  induction cs as [|c cs IH]; simpl; intros Hn; [reflexivity|].
  destruct (Z.eqb (id c) cid) eqn:E.
  - apply Z.eqb_eq in E. exfalso. apply Hn. left. exact E.
  - f_equal. apply IH. intros H. apply Hn. right. exact H.
Qed.

(** When no concept carries the id (the list was replaced since the
    button was pressed), [visualizeConcept] leaves the list as it is,
    whatever the API answers. *)
Theorem visualizeConcept_absent_id st conceptId conceptText env :
  ~ In conceptId (map id (concepts st)) ->
  concepts (snd (visualizeConcept st conceptId conceptText env)) = concepts st.
Proof.
  intros Hn. unfold visualizeConcept.
  destruct (fetchWithBackoff env 5) as [t [v|m]]; simpl; [|reflexivity].
  destruct (image_url v) as [url|m]; simpl; [|reflexivity].
  apply set_image_absent. exact Hn.
Qed.

Lemma visualizeConcept_absent_id_witness :
  concepts (snd (visualizeConcept st_with_concepts 42 "gone" env_image)) = [c_old].
Proof.
  apply visualizeConcept_absent_id. simpl. intros [H|H]; [discriminate|exact H].
Defined.

(** What every concept of the list looks like: a non-empty text, and
    no image or a PNG data URI. *)
Definition concept_ok (c : concept) : Prop :=
  text c <> "" /\ (imageUrl c = None \/ exists b, imageUrl c = Some (image_prefix ++ b)).

Lemma generateIdeas_concepts_cases st env now :
  concepts (snd (generateIdeas st env now)) = concepts st
  \/ concepts (snd (generateIdeas st env now)) = []
  \/ exists s, concepts (snd (generateIdeas st env now)) = parse_concepts now s.
Proof.
  unfold generateIdeas. destruct (String.eqb (brief st) ""); [left; reflexivity|].
  destruct (fetchWithBackoff env 5) as [t [v|m]]; simpl; [|right; left; reflexivity].
  destruct (truthy (candidate_text v)); simpl; [|right; left; reflexivity].
  destruct (candidate_text v) as [[]|]; simpl; try (right; left; reflexivity).
  right; right. eexists. reflexivity.
Qed.

Lemma visualizeConcept_concepts_cases st conceptId conceptText env :
  concepts (snd (visualizeConcept st conceptId conceptText env)) = concepts st
  \/ exists b, concepts (snd (visualizeConcept st conceptId conceptText env))
               = set_image conceptId (image_prefix ++ b) (concepts st).
Proof.
  unfold visualizeConcept. destruct (fetchWithBackoff env 5) as [t [v|m]]; simpl;
    [|left; reflexivity].
  destruct (image_url v) as [url|m] eqn:Hu; simpl; [|left; reflexivity].
  right. destruct (image_url_prefix v url Hu) as [b ->]. exists b. reflexivity.
Qed.

Lemma parse_concepts_ok now s : Forall concept_ok (parse_concepts now s).
Proof.
  unfold parse_concepts.
  assert (H : Forall (fun c => text c <> "" /\ imageUrl c = None)
                (map_index (to_concept now) 0
                   (filter nonblank (js_split (list_ascii_of_string s))))).
  { apply concepts_fields. apply Forall_forall. intros c Hc.
    apply filter_In in Hc. apply Hc. }
  eapply Forall_impl; [|exact H]. intros c [H1 H2]. split; [exact H1|left; exact H2].
Qed.

Lemma set_image_ok cid b cs :
  Forall concept_ok cs -> Forall concept_ok (set_image cid (image_prefix ++ b) cs).
Proof.
  intros H. unfold set_image. apply Forall_map. eapply Forall_impl; [|exact H].
  intros c [Ht Hi]. destruct (Z.eqb (id c) cid); [|split; assumption].
  split; [exact Ht|right; exists b; reflexivity].
Qed.

(** In every state the user can reach, every concept has a non-empty
    text and either no image or a ["data:image/png;base64,"] URI. *)
Theorem reachable_concepts_ok st : reachable st -> Forall concept_ok (concepts st).
Proof.
  induction 1 as [|st st' _ IH Hs]; [constructor|].
  destruct Hs as [st0 k|st0 b|st0|st0 env now _ _|st0 c env _ _]; try exact IH.
  - destruct (generateIdeas_concepts_cases st0 env now) as [E|[E|[s E]]]; rewrite E;
      [exact IH|constructor|apply parse_concepts_ok].
  - destruct (visualizeConcept_concepts_cases st0 (id c) (text c) env) as [E|[b E]];
      rewrite E; [exact IH|apply set_image_ok; exact IH].
Qed.

(** A session: the user enters a key, generates ideas from a two-item
    answer, and visualizes the first idea. *)
Definition ideas_json (s : string) : jval :=
  JObj [("candidates", JArr [JObj [("content",
          JObj [("parts", JArr [JObj [("text", JStr s)]])])]])].

Definition env_ideas (i : nat) : outcome :=
  Resp (mkResponse 200 (BodyJson (ideas_json sample))).

Definition st_keyed : session := setApiKey "key" initial.

Definition st_ideas : session := snd (generateIdeas st_keyed env_ideas (fun _ => 0%Z)).

Definition st_visual : session := snd (visualizeConcept st_ideas 0 "Alpha" env_image).

Lemma reachable_concepts_ok_witness :
  concepts st_visual
  = [mkConcept 0 "Alpha" (Some "data:image/png;base64,QUJD"); mkConcept 1 "Beta" None]
  /\ Forall concept_ok (concepts st_visual).
Proof.
  split; [vm_compute; reflexivity|].
  apply reachable_concepts_ok.
  apply (reach_step st_ideas).
  - apply (reach_step st_keyed).
    + apply (reach_step initial); [constructor|constructor].
    + apply (UiGenerate st_keyed env_ideas (fun _ => 0%Z)); [reflexivity|discriminate].
  - apply (UiVisualize st_ideas (mkConcept 0 "Alpha" None) env_image).
    + vm_compute. reflexivity.
    + vm_compute. left. reflexivity.
Defined.

Lemma url_nonempty b : negb (String.eqb (image_prefix ++ b) "") = true.
Proof. reflexivity. Qed.

(** After a successful image call for a concept of the list, that
    concept, with its image, is shown in the Visual Prototypes grid. *)
Theorem visualize_shows_in_visuals st c env v url :
  In c (concepts st) ->
  snd (fetchWithBackoff env 5) = Resolved v ->
  image_url v = inl url ->
  In (mkConcept (id c) (text c) (Some url))
     (visuals (concepts (snd (visualizeConcept st (id c) (text c) env)))).
Proof.
  intros Hin Hres Hu. destruct (image_url_prefix v url Hu) as [b Eb].
  unfold visualizeConcept. destruct (fetchWithBackoff env 5) as [t res].
  simpl in Hres. subst res. simpl. rewrite Hu. simpl.
  unfold visuals. apply filter_In. split.
  - unfold set_image. apply in_map_iff. exists c. split; [|exact Hin].
    rewrite Z.eqb_refl. reflexivity.
  - simpl. rewrite Eb. apply url_nonempty.
Qed.

(** An answer whose [predictions] is an object with a numeric-string
    [length]: [predictions.length > 0] converts ["1"] to [1]. *)
Definition object_predictions : jval :=
  JObj [("predictions", JObj [("length", JStr "1");
                              ("0", JObj [("bytesBase64Encoded", JStr "X")])])].

Definition env_object_predictions (i : nat) : outcome :=
  Resp (mkResponse 200 (BodyJson object_predictions)).

Lemma visualize_shows_in_visuals_witness :
  In (mkConcept 1 "Old idea" (Some "data:image/png;base64,X"))
     (visuals (concepts (snd (visualizeConcept st_with_concepts 1 "Old idea"
                                env_object_predictions)))).
Proof.
  apply (visualize_shows_in_visuals st_with_concepts c_old env_object_predictions
           object_predictions).
  - left. reflexivity.
  - vm_compute. reflexivity.
  - reflexivity.
Defined.

End SessionMore.

(** ** The proxy: what it calls and what it answers *)

Module ProxyMore.

Lemma generate_image_forms reqBody auth upstream :
  (exists m, generate_image reqBody auth upstream = ([], error_reply 500 m))
  \/ generate_image reqBody auth upstream = ([], error_reply 400 "Prompt is required.")
  \/ (exists m, generate_image reqBody auth upstream = ([PxAuth], error_reply 500 m))
  \/ (exists b p tok,
        reqBody = Some b /\ get_prop (Some b) "prompt" = Some p
        /\ truthy (Some p) = true /\ auth = AuthToken tok
        /\ ((exists m, generate_image reqBody auth upstream
                       = ([PxAuth; PxUpstream tok p], error_reply 500 m))
            \/ (exists r data, upstream = Resp r /\ ok r = true /\ rbody r = BodyJson data
                  /\ generate_image reqBody auth upstream
                     = ([PxAuth; PxUpstream tok p], mkReply 200 data)))).
Proof.
  destruct reqBody as [b|]; [|left; eexists; reflexivity].
  unfold generate_image.
  destruct b as [|bb|z|s|l|kvs]; [left; eexists; reflexivity| | | | |];
    cbv beta iota;
    (destruct (get_prop _ "prompt") as [p|] eqn:Hp; [|right; left; reflexivity]);
    (destruct (truthy (Some p)) eqn:Ht; simpl; [|right; left; reflexivity]);
    (destruct auth as [tok|m]; [|right; right; left; eexists; reflexivity]);
    right; right; right; eexists; exists p, tok;
    (split; [reflexivity|]); (split; [exact Hp|]); (split; [exact Ht|]);
    (split; [reflexivity|]);
    (destruct upstream as [r|m]; [|left; eexists; reflexivity]);
    (destruct (ok r) eqn:Ho; [|left; eexists; reflexivity]);
    (destruct (rbody r) as [data|m] eqn:Hr; [|left; eexists; reflexivity]);
    right; exists r, data; repeat split; assumption.
Qed.

(** The proxy asks for a credential at most once and calls the provider
    at most once, only with the token it obtained and the request's
    (truthy) prompt; it answers 200, 400 or 500, and every non-200
    answer is an [{ error: <message> }] object. *)
Theorem proxy_calls_and_replies reqBody auth upstream :
  (fst (generate_image reqBody auth upstream) = []
   \/ fst (generate_image reqBody auth upstream) = [PxAuth]
   \/ exists b p tok, reqBody = Some b /\ get_prop (Some b) "prompt" = Some p
                      /\ truthy (Some p) = true /\ auth = AuthToken tok
                      /\ fst (generate_image reqBody auth upstream)
                         = [PxAuth; PxUpstream tok p])
  /\ (rstatus (snd (generate_image reqBody auth upstream)) = 200%Z
      \/ rstatus (snd (generate_image reqBody auth upstream)) = 400%Z
      \/ rstatus (snd (generate_image reqBody auth upstream)) = 500%Z)
  /\ (rstatus (snd (generate_image reqBody auth upstream)) <> 200%Z ->
      exists m, rjson (snd (generate_image reqBody auth upstream)) = JObj [("error", JStr m)]).
Proof.
  destruct (generate_image_forms reqBody auth upstream)
    as [[m E]|[E|[[m E]|(b & p & tok & Hb & Hp & Ht & Ha & [[m E]|(r & data & Hu & Ho & Hr & E)])]]];
    rewrite E; simpl.
  - split; [left; reflexivity|]. split; [right; right; reflexivity|]. eauto.
  - split; [left; reflexivity|]. split; [right; left; reflexivity|]. eauto.
  - split; [right; left; reflexivity|]. split; [right; right; reflexivity|]. eauto.
  - split; [right; right; exists b, p, tok; repeat split; assumption|].
    split; [right; right; reflexivity|]. eauto.
  - split; [right; right; exists b, p, tok; repeat split; assumption|].
    split; [left; reflexivity|]. intros H; congruence.
Qed.

(** A 200 answer is the provider's JSON relayed as it is: it happens
    only after a token was obtained and the provider, called with it and
    the prompt, answered 2xx with a JSON body. *)
Theorem proxy_success_relays reqBody auth upstream :
  rstatus (snd (generate_image reqBody auth upstream)) = 200%Z ->
  exists b p tok r data,
    reqBody = Some b /\ get_prop (Some b) "prompt" = Some p /\ auth = AuthToken tok
    /\ upstream = Resp r /\ ok r = true /\ rbody r = BodyJson data
    /\ generate_image reqBody auth upstream = ([PxAuth; PxUpstream tok p], mkReply 200 data).
Proof.
  destruct (generate_image_forms reqBody auth upstream)
    as [[m E]|[E|[[m E]|(b & p & tok & Hb & Hp & Ht & Ha & [[m E]|(r & data & Hu & Ho & Hr & E)])]]];
    rewrite E; simpl; try discriminate.
  intros _. exists b, p, tok, r, data. repeat split; assumption.
Qed.

Lemma proxy_success_relays_witness :
  exists b p tok r data,
    Some (JObj [("prompt", JStr "a lake")]) = Some b
    /\ get_prop (Some b) "prompt" = Some p /\ AuthToken "tok" = AuthToken tok
    /\ Resp (mkResponse 200 (BodyJson (JObj [("predictions", JArr [])])))
       = Resp r /\ ok r = true /\ rbody r = BodyJson data
    /\ generate_image (Some (JObj [("prompt", JStr "a lake")])) (AuthToken "tok")
         (Resp (mkResponse 200 (BodyJson (JObj [("predictions", JArr [])]))))
       = ([PxAuth; PxUpstream tok p], mkReply 200 data).
Proof. apply proxy_success_relays. reflexivity. Defined.

End ProxyMore.
